(** * DiagramCraft: the TikZ editor component

    A shallow embedding of [src/components/TikZExample.jsx]: the template
    table, the presence check on the two [tikzpicture] markers, the simulated
    renderer, the handlers of the component and the two effects that tie the
    template table to the [tikzTemplates] slot of [localStorage].

    Text is modelled by [string]; a character stands for one code unit below
    256. *)

From Stdlib Require Import Ascii String NArith List Lia Bool.
From stdpp Require Import base strings gmap.

(** ** Text constants *)

(** The line feed that ends each line of a template literal. *)
Definition nl : string := String (ascii_of_nat 10) EmptyString.

(** The double quote, and a piece of text between double quotes. *)
Definition dq : string := String (ascii_of_nat 34) EmptyString.

Definition q (s : string) : string := dq +:+ s +:+ dq.

Module Templates.

(** The text bound to ['Rectangle with Circle'] in [defaultTemplates]. *)
Definition tpl_rectangle_with_circle : string :=
  nl +:+ "    \documentclass{standalone}" +:+
  nl +:+ "    \usepackage{tikz}" +:+
  nl +:+ "    \begin{document}" +:+
  nl +:+ "    \begin{tikzpicture}" +:+
  nl +:+ "      \draw[fill=blue!20] (0,0) rectangle (4,2);" +:+
  nl +:+ "      \draw[fill=red] (2,1) circle (0.5cm);" +:+
  nl +:+ "      \node at (2, 1) {Circle};" +:+
  nl +:+ "    \end{tikzpicture}" +:+
  nl +:+ "    \end{document}" +:+
  nl +:+ "  ".

(** The text bound to ['Bar Graph'] in [defaultTemplates]. *)
Definition tpl_bar_graph : string :=
  nl +:+ "    \documentclass{standalone}" +:+
  nl +:+ "    \usepackage{tikz}" +:+
  nl +:+ "    \begin{document}" +:+
  nl +:+ "    \begin{tikzpicture}" +:+
  nl +:+ "      \draw[->] (0,0) -- (6,0) node[right] {X};" +:+
  nl +:+ "      \draw[->] (0,0) -- (0,4) node[above] {Y};" +:+
  nl +:+ "      \foreach \x/\y in {1/2, 2/3, 3/1.5, 4/3.5}" +:+
  nl +:+ "        \draw[fill=blue!50] (\x-0.2,0) bar (\x+0.2,\y);" +:+
  nl +:+ "    \end{tikzpicture}" +:+
  nl +:+ "    \end{document}" +:+
  nl +:+ "  ".

(** The text bound to ['Organizational Chart'] in [defaultTemplates]. *)
Definition tpl_organizational_chart : string :=
  nl +:+ "    \documentclass{standalone}" +:+
  nl +:+ "    \usepackage{tikz}" +:+
  nl +:+ "    \usetikzlibrary{mindmap,trees}" +:+
  nl +:+ "    \begin{document}" +:+
  nl +:+ "    \begin{tikzpicture}" +:+
  nl +:+ "      \node[concept] {Company}" +:+
  nl +:+ "        child[concept] {node {HR}}" +:+
  nl +:+ "        child[concept] {node {Tech}}" +:+
  nl +:+ "        child[concept] {node {Marketing}};" +:+
  nl +:+ "    \end{tikzpicture}" +:+
  nl +:+ "    \end{document}" +:+
  nl +:+ "  ".

End Templates.

Module Svg.

(** The markup [renderTikZ] stores when the code mentions [rectangle]. *)
Definition svg_rectangle : string :=
  "<svg xmlns=" +:+ q "http://www.w3.org/2000/svg" +:+ " width=" +:+ q "400" +:+ " height=" +:+ q "200" +:+ ">" +:+
  nl +:+ "          <rect x=" +:+ q "50" +:+ " y=" +:+ q "50" +:+ " width=" +:+ q "300" +:+ " height=" +:+ q "100" +:+ " fill=" +:+ q "lightblue" +:+ " />" +:+
  nl +:+ "          <circle cx=" +:+ q "200" +:+ " cy=" +:+ q "100" +:+ " r=" +:+ q "50" +:+ " fill=" +:+ q "red" +:+ " />" +:+
  nl +:+ "          <text x=" +:+ q "200" +:+ " y=" +:+ q "105" +:+ " font-size=" +:+ q "20" +:+ " text-anchor=" +:+ q "middle" +:+ " fill=" +:+ q "black" +:+ ">Circle</text>" +:+
  nl +:+ "        </svg>".

(** The markup [renderTikZ] stores when the code mentions [bar]. *)
Definition svg_bar : string :=
  "<svg xmlns=" +:+ q "http://www.w3.org/2000/svg" +:+ " width=" +:+ q "400" +:+ " height=" +:+ q "200" +:+ ">" +:+
  nl +:+ "          <line x1=" +:+ q "50" +:+ " y1=" +:+ q "150" +:+ " x2=" +:+ q "350" +:+ " y2=" +:+ q "150" +:+ " stroke=" +:+ q "black" +:+ " />" +:+
  nl +:+ "          <line x1=" +:+ q "50" +:+ " y1=" +:+ q "150" +:+ " x2=" +:+ q "50" +:+ " y2=" +:+ q "50" +:+ " stroke=" +:+ q "black" +:+ " />" +:+
  nl +:+ "          <rect x=" +:+ q "70" +:+ " y=" +:+ q "100" +:+ " width=" +:+ q "30" +:+ " height=" +:+ q "50" +:+ " fill=" +:+ q "blue" +:+ " />" +:+
  nl +:+ "          <rect x=" +:+ q "120" +:+ " y=" +:+ q "80" +:+ " width=" +:+ q "30" +:+ " height=" +:+ q "70" +:+ " fill=" +:+ q "blue" +:+ " />" +:+
  nl +:+ "          <rect x=" +:+ q "170" +:+ " y=" +:+ q "110" +:+ " width=" +:+ q "30" +:+ " height=" +:+ q "40" +:+ " fill=" +:+ q "blue" +:+ " />" +:+
  nl +:+ "          <text x=" +:+ q "200" +:+ " y=" +:+ q "170" +:+ " font-size=" +:+ q "12" +:+ " text-anchor=" +:+ q "middle" +:+ ">Bar Graph</text>" +:+
  nl +:+ "        </svg>".

(** The markup [renderTikZ] stores when the code mentions [mindmap]. *)
Definition svg_mindmap : string :=
  "<svg xmlns=" +:+ q "http://www.w3.org/2000/svg" +:+ " width=" +:+ q "400" +:+ " height=" +:+ q "200" +:+ ">" +:+
  nl +:+ "          <circle cx=" +:+ q "200" +:+ " cy=" +:+ q "100" +:+ " r=" +:+ q "30" +:+ " fill=" +:+ q "green" +:+ " />" +:+
  nl +:+ "          <text x=" +:+ q "200" +:+ " y=" +:+ q "105" +:+ " font-size=" +:+ q "12" +:+ " text-anchor=" +:+ q "middle" +:+ " fill=" +:+ q "white" +:+ ">Company</text>" +:+
  nl +:+ "          <line x1=" +:+ q "200" +:+ " y1=" +:+ q "100" +:+ " x2=" +:+ q "150" +:+ " y2=" +:+ q "50" +:+ " stroke=" +:+ q "black" +:+ " />" +:+
  nl +:+ "          <line x1=" +:+ q "200" +:+ " y1=" +:+ q "100" +:+ " x2=" +:+ q "250" +:+ " y2=" +:+ q "50" +:+ " stroke=" +:+ q "black" +:+ " />" +:+
  nl +:+ "          <line x1=" +:+ q "200" +:+ " y1=" +:+ q "100" +:+ " x2=" +:+ q "200" +:+ " y2=" +:+ q "150" +:+ " stroke=" +:+ q "black" +:+ " />" +:+
  nl +:+ "          <text x=" +:+ q "150" +:+ " y=" +:+ q "45" +:+ " font-size=" +:+ q "10" +:+ " text-anchor=" +:+ q "middle" +:+ ">HR</text>" +:+
  nl +:+ "          <text x=" +:+ q "250" +:+ " y=" +:+ q "45" +:+ " font-size=" +:+ q "10" +:+ " text-anchor=" +:+ q "middle" +:+ ">Tech</text>" +:+
  nl +:+ "          <text x=" +:+ q "200" +:+ " y=" +:+ q "165" +:+ " font-size=" +:+ q "10" +:+ " text-anchor=" +:+ q "middle" +:+ ">Marketing</text>" +:+
  nl +:+ "        </svg>".

End Svg.

(** ** Strings as the component uses them *)

(** [s.includes(search)]: [search] occurs in [s] at some position, compared
    code unit by code unit. *)
Fixpoint includes (s search : string) : bool :=
  String.prefix search s ||
  match s with
  | EmptyString => false
  | String _ s' => includes s' search
  end.

(** What "[s] contains [w]" means: [w] stands somewhere in [s], unanchored
    and character for character. *)
Definition contains (s w : string) : Prop :=
  exists a b : string, s = a +:+ w +:+ b.

(** [errors.join(sep)] on an array of strings. *)
Definition join (sep : string) (errors : list string) : string :=
  String.concat sep errors.

(** ** The syntax check and the simulated renderer *)

Definition begin_marker : string := "\begin{tikzpicture}".
Definition end_marker : string := "\end{tikzpicture}".

(** [validateTikZSyntax]: the array [errors] after the two pushes. *)
Definition validateTikZSyntax (code : string) : list string :=
  let errors := [] in
  let errors :=
    if negb (includes code begin_marker)
    then errors ++ ["Missing \begin{tikzpicture}"] else errors in
  let errors :=
    if negb (includes code end_marker)
    then errors ++ ["Missing \end{tikzpicture}"] else errors in
  errors.

(** The chain of branches that ends [renderTikZ] (the part under
    "Simulate rendering TikZ as SVG"): the value passed to [setRenderedSVG]. *)
Definition synthesize (tikzCode : string) : string :=
  if includes tikzCode "rectangle" then Svg.svg_rectangle
  else if includes tikzCode "bar" then Svg.svg_bar
  else if includes tikzCode "mindmap" then Svg.svg_mindmap
  else "<pre>" +:+ tikzCode +:+ "</pre>".

(** ** The component *)

(** The four [useState] cells. [None] is [null]. *)
Record component : Type := Component {
  tikzCode : string;
  templates : gmap string string;
  renderedSVG : option string;
  error : option string
}.

(** State of the component at its first render. *)
Definition initial : component :=
  {| tikzCode := ""; templates := ∅; renderedSVG := None; error := None |}.

Definition setTikzCode (v : string) (c : component) : component :=
  {| tikzCode := v; templates := templates c;
     renderedSVG := renderedSVG c; error := error c |}.

Definition setTemplates (v : gmap string string) (c : component) : component :=
  {| tikzCode := tikzCode c; templates := v;
     renderedSVG := renderedSVG c; error := error c |}.

Definition setRenderedSVG (v : option string) (c : component) : component :=
  {| tikzCode := tikzCode c; templates := templates c;
     renderedSVG := v; error := error c |}.

Definition setError (v : option string) (c : component) : component :=
  {| tikzCode := tikzCode c; templates := templates c;
     renderedSVG := renderedSVG c; error := v |}.

(** [renderTikZ]: the handler of the "Render TikZ" button. *)
Definition renderTikZ (c : component) : component :=
  let errors := validateTikZSyntax (tikzCode c) in
  if 0 <? length errors then
    setRenderedSVG None (setError (Some (join ", " errors)) c)
  else
    setRenderedSVG (Some (synthesize (tikzCode c))) (setError None c).

(** [downloadCode]: the content and the file name handed to [FileDownload]. *)
Definition downloadCode (c : component) : string * string :=
  (tikzCode c, "diagram.tex").

(** [handleTemplateChange]: [templates[selectedTemplate] || '']. The selected
    name is the value of an option of the select, and the options are the own
    keys of [templates]; for a name that is no key the lookup is taken as
    [undefined] (properties inherited from [Object.prototype] are left out).
    The empty text is the only falsy text. *)
Definition handleTemplateChange (selectedTemplate : string) (c : component)
  : component :=
  let code :=
    match templates c !! selectedTemplate with
    | Some code => if String.eqb code "" then "" else code
    | None => ""
    end in
  setTikzCode code c.

(** [handleTemplateModification]: a copy of [templates] with [name] bound to
    [newCode]. *)
Definition handleTemplateModification (name newCode : string) (c : component)
  : component :=
  let updatedTemplates := <[name := newCode]> (templates c) in
  setTemplates updatedTemplates c.

(** [handleCodeChange]: the editor's text replaces [tikzCode]. *)
Definition handleCodeChange (value : string) (c : component) : component :=
  setTikzCode value c.

(** The element [{error && <div ...>{error}</div>}] of the rendered tree:
    the text of the red box, when there is one. [null] and the empty text
    are the falsy values [error] can hold. *)
Definition errorBox (c : component) : option string :=
  match error c with
  | Some e => if String.eqb e "" then None else Some e
  | None => None
  end.

(** ** JSON text, as [JSON.parse] reads it and [JSON.stringify] writes it *)

Module JSON.

(** A parsed value. A string is kept as its code units (an escape [\uXXXX]
    can denote a unit beyond 255), a number as the text of its literal, and
    an object as its members in the order of the text, duplicates included. *)
#[local] Set Warnings "-register-all".
Inductive value : Type :=
| Null
| Bool (b : bool)
| Number (literal : string)
| Str (units : list N)
| Array (items : list value)
| Object (members : list (list N * value)).
#[local] Set Warnings "register-all".

(** Outcome of a parser on a piece of text: a result and the text left, a
    syntax error, or a recursion budget that ran out. *)
Inductive parsed (A : Type) : Type :=
| Parsed (a : A) (rest : string)
| SyntaxError
| OutOfFuel.
Arguments Parsed {A} a rest.
Arguments SyntaxError {A}.
Arguments OutOfFuel {A}.

Definition dquote : ascii := ascii_of_nat 34.
Definition backslash : ascii := ascii_of_nat 92.

Definition is_ws (c : ascii) : bool :=
  let n := N_of_ascii c in
  ((n =? 32) || (n =? 9) || (n =? 10) || (n =? 13))%N.

Fixpoint skip_ws (s : string) : string :=
  match s with
  | EmptyString => EmptyString
  | String c s' => if is_ws c then skip_ws s' else s
  end.

Definition is_digit (c : ascii) : bool :=
  let n := N_of_ascii c in ((48 <=? n) && (n <=? 57))%N.

Definition hex_digit (c : ascii) : option N :=
  let n := N_of_ascii c in
  if ((48 <=? n) && (n <=? 57))%N then Some (n - 48)%N
  else if ((65 <=? n) && (n <=? 70))%N then Some (n - 55)%N
  else if ((97 <=? n) && (n <=? 102))%N then Some (n - 87)%N
  else None.

Definition hex4 (h1 h2 h3 h4 : ascii) : option N :=
  match hex_digit h1, hex_digit h2, hex_digit h3, hex_digit h4 with
  | Some a, Some b, Some c, Some d => Some (((a * 16 + b) * 16 + c) * 16 + d)%N
  | _, _, _, _ => None
  end.

(** The unit denoted by a one-letter escape. *)
Definition simple_escape (e : ascii) : option N :=
  if Ascii.eqb e dquote then Some 34%N
  else if Ascii.eqb e backslash then Some 92%N
  else if Ascii.eqb e "/" then Some 47%N
  else if Ascii.eqb e "b" then Some 8%N
  else if Ascii.eqb e "f" then Some 12%N
  else if Ascii.eqb e "n" then Some 10%N
  else if Ascii.eqb e "r" then Some 13%N
  else if Ascii.eqb e "t" then Some 9%N
  else None.

Definition prepend (u : N) (r : option (list N * string))
  : option (list N * string) :=
  match r with
  | Some (us, rest) => Some (u :: us, rest)
  | None => None
  end.

(** The characters of a string after its opening quote, up to and including
    the closing quote. *)
Fixpoint string_body (s : string) : option (list N * string) :=
  match s with
  | EmptyString => None
  | String c s' =>
    if Ascii.eqb c dquote then Some ([], s')
    else if Ascii.eqb c backslash then
      match s' with
      | EmptyString => None
      | String e s'' =>
        match simple_escape e with
        | Some u => prepend u (string_body s'')
        | None =>
          if Ascii.eqb e "u" then
            match s'' with
            | String h1 (String h2 (String h3 (String h4 r))) =>
              match hex4 h1 h2 h3 h4 with
              | Some u => prepend u (string_body r)
              | None => None
              end
            | _ => None
            end
          else None
        end
      end
    else if (N_of_ascii c <? 32)%N then None
    else prepend (N_of_ascii c) (string_body s')
  end.

(** The longest run of decimal digits at the head of the text. *)
Fixpoint digits (s : string) : string * string :=
  match s with
  | EmptyString => (EmptyString, EmptyString)
  | String c s' =>
    if is_digit c then let (d, r) := digits s' in (String c d, r)
    else (EmptyString, s)
  end.

(** A number literal: sign, integer part without a leading zero, fraction,
    exponent. *)
Definition number (s : string) : option (string * string) :=
  let (sign, s1) :=
    match s with
    | String c r => if Ascii.eqb c "-" then ("-", r) else ("", s)
    | EmptyString => ("", s)
    end in
  match s1 with
  | EmptyString => None
  | String c r =>
    if negb (is_digit c) then None else
    let (int, r1) :=
      if Ascii.eqb c "0" then ("0", r)
      else let (d, r') := digits r in (String c d, r') in
    let frac :=
      match r1 with
      | String c1 r2 =>
        if Ascii.eqb c1 "." then
          let (d, r3) := digits r2 in
          if String.eqb d "" then None else Some ("." +:+ d, r3)
        else Some ("", r1)
      | EmptyString => Some ("", r1)
      end in
    match frac with
    | None => None
    | Some (fr, r4) =>
      let exp :=
        match r4 with
        | String c2 r5 =>
          if Ascii.eqb c2 "e" || Ascii.eqb c2 "E" then
            let (sg, r6) :=
              match r5 with
              | String c3 r7 =>
                if Ascii.eqb c3 "+" || Ascii.eqb c3 "-"
                then (String c3 "", r7) else ("", r5)
              | EmptyString => ("", r5)
              end in
            let (d, r8) := digits r6 in
            if String.eqb d "" then None
            else Some (String c2 sg +:+ d, r8)
          else Some ("", r4)
        | EmptyString => Some ("", r4)
        end in
      match exp with
      | None => None
      | Some (ex, r9) => Some (sign +:+ int +:+ fr +:+ ex, r9)
      end
    end
  end.

(** [keyword w s]: the text after the word [w] at the head of [s]. *)
Fixpoint keyword (w s : string) : option string :=
  match w with
  | EmptyString => Some s
  | String a w' =>
    match s with
    | String b s' => if Ascii.eqb a b then keyword w' s' else None
    | EmptyString => None
    end
  end.

(** A value, the items of an array after its first bracket, and the members
    of an object after its brace. Every call spends one unit of [fuel]. *)
Fixpoint parse_value (fuel : nat) (s : string) : parsed value :=
  match fuel with
  | O => OutOfFuel
  | S n =>
    match skip_ws s with
    | EmptyString => SyntaxError
    | String c r =>
      if Ascii.eqb c "{" then
        match skip_ws r with
        | String c1 r1 =>
          if Ascii.eqb c1 "}" then Parsed (Object []) r1
          else
            match parse_members n (String c1 r1) with
            | Parsed ms rest => Parsed (Object ms) rest
            | SyntaxError => SyntaxError
            | OutOfFuel => OutOfFuel
            end
        | EmptyString => SyntaxError
        end
      else if Ascii.eqb c "[" then
        match skip_ws r with
        | String c1 r1 =>
          if Ascii.eqb c1 "]" then Parsed (Array []) r1
          else
            match parse_items n (String c1 r1) with
            | Parsed vs rest => Parsed (Array vs) rest
            | SyntaxError => SyntaxError
            | OutOfFuel => OutOfFuel
            end
        | EmptyString => SyntaxError
        end
      else if Ascii.eqb c dquote then
        match string_body r with
        | Some (us, rest) => Parsed (Str us) rest
        | None => SyntaxError
        end
      else if Ascii.eqb c "t" then
        match keyword "rue" r with
        | Some rest => Parsed (Bool true) rest
        | None => SyntaxError
        end
      else if Ascii.eqb c "f" then
        match keyword "alse" r with
        | Some rest => Parsed (Bool false) rest
        | None => SyntaxError
        end
      else if Ascii.eqb c "n" then
        match keyword "ull" r with
        | Some rest => Parsed Null rest
        | None => SyntaxError
        end
      else
        match number (String c r) with
        | Some (lit, rest) => Parsed (Number lit) rest
        | None => SyntaxError
        end
    end
  end

with parse_items (fuel : nat) (s : string) : parsed (list value) :=
  match fuel with
  | O => OutOfFuel
  | S n =>
    match parse_value n s with
    | Parsed v rest =>
      match skip_ws rest with
      | String c r =>
        if Ascii.eqb c "]" then Parsed [v] r
        else if Ascii.eqb c "," then
          match parse_items n r with
          | Parsed vs rest' => Parsed (v :: vs) rest'
          | SyntaxError => SyntaxError
          | OutOfFuel => OutOfFuel
          end
        else SyntaxError
      | EmptyString => SyntaxError
      end
    | SyntaxError => SyntaxError
    | OutOfFuel => OutOfFuel
    end
  end

with parse_members (fuel : nat) (s : string) : parsed (list (list N * value)) :=
  match fuel with
  | O => OutOfFuel
  | S n =>
    match skip_ws s with
    | String c r =>
      if Ascii.eqb c dquote then
        match string_body r with
        | Some (k, r1) =>
          match skip_ws r1 with
          | String c1 r2 =>
            if Ascii.eqb c1 ":" then
              match parse_value n r2 with
              | Parsed v rest =>
                match skip_ws rest with
                | String c2 r3 =>
                  if Ascii.eqb c2 "}" then Parsed [(k, v)] r3
                  else if Ascii.eqb c2 "," then
                    match parse_members n r3 with
                    | Parsed ms rest' => Parsed ((k, v) :: ms) rest'
                    | SyntaxError => SyntaxError
                    | OutOfFuel => OutOfFuel
                    end
                  else SyntaxError
                | EmptyString => SyntaxError
                end
              | SyntaxError => SyntaxError
              | OutOfFuel => OutOfFuel
              end
            else SyntaxError
          | EmptyString => SyntaxError
          end
        | None => SyntaxError
        end
      else SyntaxError
    | EmptyString => SyntaxError
    end
  end.

(** How [parse_members] goes on once it has read a member [kv]. *)
Definition after_member (n : nat) (kv : list N * value) (tail : string)
  : parsed (list (list N * value)) :=
  match skip_ws tail with
  | String c r =>
    if Ascii.eqb c "}" then Parsed [kv] r
    else if Ascii.eqb c "," then
      match parse_members n r with
      | Parsed ms rest => Parsed (kv :: ms) rest
      | SyntaxError => SyntaxError
      | OutOfFuel => OutOfFuel
      end
    else SyntaxError
  | EmptyString => SyntaxError
  end.

(** [JSON.parse(text)]: one value, then nothing but white space. [None] is
    the [SyntaxError] the call throws. *)
Definition parse (text : string) : option value :=
  match parse_value (2 * String.length text + 1) text with
  | Parsed v rest =>
    match skip_ws rest with
    | EmptyString => Some v
    | String _ _ => None
    end
  | SyntaxError => None
  | OutOfFuel => None
  end.

(** *** Writing *)

Definition hex_char (d : N) : ascii :=
  if (d <? 10)%N then ascii_of_N (48 + d) else ascii_of_N (87 + d).

(** One character inside a quoted string: the two-character escapes, the
    [\u00XX] form for the other control characters, the character itself
    otherwise. *)
Definition escape_char (c : ascii) : string :=
  let n := N_of_ascii c in
  if (n =? 34)%N then String backslash (String dquote "")
  else if (n =? 92)%N then String backslash (String backslash "")
  else if (n =? 8)%N then String backslash "b"
  else if (n =? 9)%N then String backslash "t"
  else if (n =? 10)%N then String backslash "n"
  else if (n =? 12)%N then String backslash "f"
  else if (n =? 13)%N then String backslash "r"
  else if (n <? 32)%N then
    String backslash
      (String "u" (String "0" (String "0"
        (String (hex_char (n / 16)) (String (hex_char (n mod 16)) "")))))
  else String c "".

Fixpoint quote_body (s : string) : string :=
  match s with
  | EmptyString => EmptyString
  | String c s' => escape_char c +:+ quote_body s'
  end.

(** A string between quotes, escaped. *)
Definition quote (s : string) : string :=
  String dquote (quote_body s +:+ String dquote "").

Definition member (kv : string * string) : string :=
  quote kv.1 +:+ ":" +:+ quote kv.2.

(** [JSON.stringify(o)] for an object [o] whose values are strings. The
    members are written in the order [map_to_list] lists them; the engine
    writes them in property order. The two orders hold the same bindings. *)
Definition stringify (o : gmap string string) : string :=
  "{" +:+ join "," (member <$> map_to_list o) +:+ "}".

(** *** From a parsed value to a table of templates *)

Definition unit_char (u : N) : option ascii :=
  if (u <? 256)%N then Some (ascii_of_N u) else None.

Fixpoint text_of_units (us : list N) : option string :=
  match us with
  | [] => Some EmptyString
  | u :: us' =>
    c ← unit_char u; s ← text_of_units us'; Some (String c s)
  end.

Definition units_of_text (s : string) : list N :=
  N_of_ascii <$> list_ascii_of_string s.

(** The member [stringify] writes for a binding, as [parse] reads it. *)
Definition value_of_member (kv : string * string) : list N * value :=
  (units_of_text kv.1, Str (units_of_text kv.2)).

Definition member_text (kv : list N * value) : option (string * string) :=
  k ← text_of_units kv.1;
  match kv.2 with
  | Str us => v ← text_of_units us; Some (k, v)
  | _ => None
  end.

(** The object a list of members denotes: a later member with the same key
    replaces the earlier one. *)
Definition object_of_members (kvs : list (string * string))
  : gmap string string :=
  foldl (fun o kv => <[kv.1 := kv.2]> o) ∅ kvs.

(** The parsed value as a table from names to texts, when it is an object
    whose keys and values are strings of units below 256. *)
Definition as_templates (v : value) : option (gmap string string) :=
  match v with
  | Object ms => object_of_members <$> mapM member_text ms
  | _ => None
  end.

End JSON.

(** ** The template table and its slot in [localStorage] *)

Definition defaultTemplates : gmap string string :=
  {[ "Rectangle with Circle" := Templates.tpl_rectangle_with_circle;
     "Bar Graph" := Templates.tpl_bar_graph;
     "Organizational Chart" := Templates.tpl_organizational_chart ]}.

(** What the first effect passes to [setTemplates], or the error it throws.
    [SetForeign] is a parsed value that is no table from names to texts. *)
Inductive loaded : Type :=
| SetTemplates (v : gmap string string)
| SetForeign (v : JSON.value)
| Throws.

(** The first effect. [stored] is [localStorage.getItem('tikzTemplates')]:
    [None] is [null]; the empty text is falsy as [null] is. *)
Definition load (stored : option string) : loaded :=
  match stored with
  | None => SetTemplates defaultTemplates
  | Some storedTemplates =>
    if String.eqb storedTemplates "" then SetTemplates defaultTemplates
    else
      match JSON.parse storedTemplates with
      | None => Throws
      | Some v =>
        match JSON.as_templates v with
        | Some m => SetTemplates m
        | None => SetForeign v
        end
      end
  end.

(** The second effect, on the value of [templates] it runs with: the slot
    afterwards. [Object.keys(templates).length] is the size of the table. *)
Definition persist (templates : gmap string string) (stored : option string)
  : option string :=
  if 0 <? size templates then Some (JSON.stringify templates) else stored.

(** Where mounting the component ends: a running component and the slot, a
    crash on the error of the first effect, or a table outside the model. *)
Inductive mounted : Type :=
| Running (c : component) (stored : option string)
| Crashed
| Foreign (v : JSON.value).

(** Mounting: the first render runs both effects on [initial], the second
    one with the empty table; [setTemplates] then renders again and, the
    table being a new object, the second effect runs once more. *)
Definition mount (stored : option string) : mounted :=
  match load stored with
  | Throws => Crashed
  | SetForeign v => Foreign v
  | SetTemplates m =>
    let stored1 := persist (templates initial) stored in
    let c := setTemplates m initial in
    Running c (persist (templates c) stored1)
  end.

(** What the user can do to a running component. *)
Inductive action : Type :=
| SelectTemplate (name : string)
| EditCode (value : string)
| Render
| ModifyTemplate (name newCode : string)
| Download.

(** One action on the component and the slot. Only
    [handleTemplateModification] makes a new table, so only after it does the
    second effect run. *)
Definition step (a : action) (cs : component * option string)
  : component * option string :=
  let (c, stored) := cs in
  match a with
  | SelectTemplate name => (handleTemplateChange name c, stored)
  | EditCode value => (handleCodeChange value c, stored)
  | Render => (renderTikZ c, stored)
  | ModifyTemplate name newCode =>
    let c' := handleTemplateModification name newCode c in
    (c', persist (templates c') stored)
  | Download => (c, stored)
  end.

Definition run (acts : list action) (cs : component * option string)
  : component * option string :=
  foldl (fun cs a => step a cs) cs acts.

(** The states a session passes through: any table and any slot to start
    with, an empty editor, no error and no rendered markup; then any
    sequence of actions. *)
Inductive reachable : component * option string -> Prop :=
| reachable_start (t : gmap string string) (stored : option string) :
    reachable (setTemplates t initial, stored)
| reachable_step (a : action) (cs : component * option string) :
    reachable cs -> reachable (step a cs).

(** * Properties *)

(** ** Substrings *)

Section Substrings.

Implicit Types s w a b : string.

Lemma append_nil s : "" +:+ s = s.
Proof. reflexivity. Qed.

Lemma append_cons (c : ascii) a s : String c a +:+ s = String c (a +:+ s).
Proof. reflexivity. Qed.

Lemma append_assoc a b s : (a +:+ b) +:+ s = a +:+ b +:+ s.
Proof.
  induction a as [|c a IH]; [reflexivity|].
  rewrite !append_cons. now rewrite IH.
Qed.

Lemma append_empty_r s : s +:+ "" = s.
Proof.
  induction s as [|c s IH]; [reflexivity|]. rewrite append_cons. now rewrite IH.
Qed.

Lemma prefix_append w : forall s,
  String.prefix w s = true <-> exists b, s = w +:+ b.
Proof.
  induction w as [|c w IH]; intros s.
  - destruct s; simpl; split; eauto.
  - destruct s as [|d s]; simpl.
    + split; [discriminate | intros [b Hb]; discriminate].
    + destruct (ascii_dec c d) as [->|Hne].
      * rewrite IH. split; intros [b Hb]; exists b;
          rewrite append_cons in *; congruence.
      * split; [discriminate |].
        intros [b Hb]. rewrite append_cons in Hb. congruence.
Qed.

Lemma includes_contains s w : includes s w = true <-> contains s w.
Proof.
  unfold contains. induction s as [|c s IH].
  - cbn [includes]. rewrite orb_false_r, prefix_append. split.
    + intros [b Hb]. exists "", b. exact Hb.
    + intros [a [b Hab]]. destruct a as [|? ?]; [|discriminate].
      exists b. exact Hab.
  - cbn [includes]. rewrite orb_true_iff, prefix_append, IH. split.
    + intros [[b Hb] | [a [b Hab]]].
      * exists "", b. exact Hb.
      * exists (String c a), b. rewrite append_cons. now rewrite Hab.
    + intros [a [b Hab]]. destruct a as [|d a].
      * left. exists b. exact Hab.
      * right. exists a, b. rewrite append_cons in Hab. congruence.
Qed.

Lemma includes_not_contains s w : includes s w = false <-> ~ contains s w.
Proof.
  rewrite <- includes_contains. destruct (includes s w); split; intros H;
    congruence.
Qed.

End Substrings.

(** ** The syntax check *)

(** C3. [validateTikZSyntax] is a total function of the code alone; its
    result has at most two messages, is empty exactly when the code
    contains both markers, and is the single message about the opening
    marker when only that marker is missing. *)
Theorem validateTikZSyntax_spec (code : string) :
  length (validateTikZSyntax code) <= 2 /\
  (validateTikZSyntax code = [] <->
     contains code begin_marker /\ contains code end_marker) /\
  (~ contains code begin_marker -> contains code end_marker ->
     validateTikZSyntax code = ["Missing \begin{tikzpicture}"]).
Proof.
  unfold validateTikZSyntax.
  rewrite <- includes_not_contains, <- !includes_contains.
  destruct (includes code begin_marker), (includes code end_marker); simpl;
    repeat split; intros; try lia; try easy; intuition discriminate.
Qed.

Lemma validateTikZSyntax_witness :
  validateTikZSyntax "draw \end{tikzpicture}" = ["Missing \begin{tikzpicture}"].
Proof.
  apply (validateTikZSyntax_spec "draw \end{tikzpicture}").
  - apply includes_not_contains. reflexivity.
  - exists "draw ", "". reflexivity.
Defined.

(** ** The simulated renderer *)

(** C2. The markup is chosen by the first of three words the code contains,
    in the order [rectangle], [bar], [mindmap]; code with none of them comes
    back between [<pre>] tags, unescaped. *)
Theorem synthesize_priority (code : string) :
  (contains code "rectangle" -> synthesize code = Svg.svg_rectangle) /\
  (~ contains code "rectangle" -> contains code "bar" ->
     synthesize code = Svg.svg_bar) /\
  (~ contains code "rectangle" -> ~ contains code "bar" ->
     contains code "mindmap" -> synthesize code = Svg.svg_mindmap) /\
  (~ contains code "rectangle" -> ~ contains code "bar" ->
     ~ contains code "mindmap" ->
     synthesize code = "<pre>" +:+ code +:+ "</pre>").
Proof.
  unfold synthesize. rewrite <- !includes_not_contains, <- !includes_contains.
  repeat split; intros; repeat match goal with H : _ = _ |- _ => rewrite H end;
    reflexivity.
Qed.

Lemma synthesize_priority_witness :
  synthesize "a bar over a rectangle in a mindmap" = Svg.svg_rectangle /\
  synthesize "a bar in a mindmap" = Svg.svg_bar /\
  synthesize "a mindmap" = Svg.svg_mindmap /\
  synthesize "a Rectangle" = "<pre>a Rectangle</pre>".
Proof.
  split; [|split; [|split]].
  - apply (synthesize_priority "a bar over a rectangle in a mindmap").
    exists "a bar over a ", " in a mindmap". reflexivity.
  - apply (synthesize_priority "a bar in a mindmap").
    + apply includes_not_contains. reflexivity.
    + exists "a ", " in a mindmap". reflexivity.
  - apply (synthesize_priority "a mindmap").
    + apply includes_not_contains. reflexivity.
    + apply includes_not_contains. reflexivity.
    + exists "a ", "". reflexivity.
  - apply (synthesize_priority "a Rectangle"); apply includes_not_contains;
      reflexivity.
Defined.

(** ** Rendering *)

Lemma validateTikZSyntax_cases (code : string) :
  validateTikZSyntax code =
    (if includes code begin_marker then [] else ["Missing \begin{tikzpicture}"])
    ++ (if includes code end_marker then [] else ["Missing \end{tikzpicture}"]).
Proof.
  unfold validateTikZSyntax.
  destruct (includes code begin_marker), (includes code end_marker);
    reflexivity.
Qed.

Ltac markers code :=
  rewrite ?(validateTikZSyntax_cases code) in *;
  destruct (includes code begin_marker), (includes code end_marker).

Lemma renderTikZ_reports (c : component) :
  validateTikZSyntax (tikzCode c) <> [] ->
  renderedSVG (renderTikZ c) = None /\
  error (renderTikZ c) = Some (join ", " (validateTikZSyntax (tikzCode c))).
Proof.
  unfold renderTikZ. destruct (validateTikZSyntax (tikzCode c)); easy.
Qed.

(** C4. [renderTikZ] runs the check on the current code. When the check
    reports something, no markup is kept and the report is stored as the
    error; when it reports nothing, the error is cleared and the markup of
    [synthesize] is kept. The stored error tells the reports apart, and on
    the empty code both markers are reported and no markup is kept. *)
Theorem renderTikZ_gate (c : component) :
  (validateTikZSyntax (tikzCode c) <> [] ->
     renderedSVG (renderTikZ c) = None /\
     error (renderTikZ c) = Some (join ", " (validateTikZSyntax (tikzCode c)))) /\
  (validateTikZSyntax (tikzCode c) = [] ->
     renderedSVG (renderTikZ c) = Some (synthesize (tikzCode c)) /\
     error (renderTikZ c) = None) /\
  (forall c2 : component,
     error (renderTikZ c2) = error (renderTikZ c) ->
     validateTikZSyntax (tikzCode c2) = validateTikZSyntax (tikzCode c)) /\
  (tikzCode c = "" ->
     validateTikZSyntax (tikzCode c) =
       ["Missing \begin{tikzpicture}"; "Missing \end{tikzpicture}"] /\
     renderedSVG (renderTikZ c) = None /\
     error (renderTikZ c) =
       Some (join ", " ["Missing \begin{tikzpicture}";
                        "Missing \end{tikzpicture}"])).
Proof.
  split; [|split; [|split]].
  - apply renderTikZ_reports.
  - unfold renderTikZ. intros ->. easy.
  - intros c2. unfold renderTikZ.
    markers (tikzCode c); markers (tikzCode c2); vm_compute; congruence.
  - unfold renderTikZ. intros ->. split; [|split]; reflexivity.
Qed.

Lemma renderTikZ_gate_witness :
  validateTikZSyntax (tikzCode initial) =
    ["Missing \begin{tikzpicture}"; "Missing \end{tikzpicture}"] /\
  renderedSVG (renderTikZ initial) = None /\
  error (renderTikZ initial) =
    Some (join ", " ["Missing \begin{tikzpicture}";
                     "Missing \end{tikzpicture}"]).
Proof. apply (renderTikZ_gate initial). reflexivity. Defined.

(** C10. When the check reports something, the error kept by [renderTikZ]
    is one text: the messages in the order of the two rules, joined by a
    comma and a space. For the empty code it is the two messages joined. *)
Theorem renderTikZ_error_joined (c : component) :
  validateTikZSyntax (tikzCode c) <> [] ->
  error (renderTikZ c) = Some (join ", " (validateTikZSyntax (tikzCode c))) /\
  (error (renderTikZ c) = Some "Missing \begin{tikzpicture}" \/
   error (renderTikZ c) = Some "Missing \end{tikzpicture}" \/
   error (renderTikZ c) =
     Some "Missing \begin{tikzpicture}, Missing \end{tikzpicture}") /\
  (tikzCode c = "" ->
   error (renderTikZ c) =
     Some "Missing \begin{tikzpicture}, Missing \end{tikzpicture}").
Proof.
  intros Hne. split; [|split].
  - apply renderTikZ_reports, Hne.
  - revert Hne. unfold renderTikZ. markers (tikzCode c); vm_compute; tauto.
  - unfold renderTikZ. intros ->. reflexivity.
Qed.

Lemma renderTikZ_error_joined_witness :
  error (renderTikZ initial) =
    Some "Missing \begin{tikzpicture}, Missing \end{tikzpicture}".
Proof.
  apply (renderTikZ_error_joined initial); [discriminate | reflexivity].
Defined.

(** C8. With the default table loaded, choosing a default template and
    rendering leaves no error and keeps the markup of that template's
    kind. Each default text contains both markers and its own word, and no
    word of a branch tried before its own. *)
Theorem default_templates_render :
  let c0 := setTemplates defaultTemplates initial in
  let shown name := renderTikZ (handleTemplateChange name c0) in
  (exists stored, mount None = Running c0 stored) /\
  (error (shown "Rectangle with Circle") = None /\
   renderedSVG (shown "Rectangle with Circle") = Some Svg.svg_rectangle) /\
  (error (shown "Bar Graph") = None /\
   renderedSVG (shown "Bar Graph") = Some Svg.svg_bar) /\
  (error (shown "Organizational Chart") = None /\
   renderedSVG (shown "Organizational Chart") = Some Svg.svg_mindmap) /\
  (forall name code, defaultTemplates !! name = Some code ->
     includes code begin_marker = true /\ includes code end_marker = true) /\
  includes Templates.tpl_rectangle_with_circle "rectangle" = true /\
  (includes Templates.tpl_bar_graph "rectangle" = false /\
   includes Templates.tpl_bar_graph "bar" = true) /\
  (includes Templates.tpl_organizational_chart "rectangle" = false /\
   includes Templates.tpl_organizational_chart "bar" = false /\
   includes Templates.tpl_organizational_chart "mindmap" = true).
Proof.
  intros c0 shown. split; [eexists; reflexivity|].
  split; [split; vm_compute; reflexivity|].
  split; [split; vm_compute; reflexivity|].
  split; [split; vm_compute; reflexivity|].
  split; [|vm_compute; tauto].
  intros name code. unfold defaultTemplates.
  rewrite !lookup_insert, lookup_singleton.
  repeat case_decide; try discriminate; intros [= <-]; vm_compute; tauto.
Qed.

(** ** The slot *)

Lemma persist_nonempty (t : gmap string string) (stored : option string) :
  t <> ∅ -> persist t stored = Some (JSON.stringify t).
Proof.
  unfold persist. intros Hne.
  destruct (size t) as [|n] eqn:Hsize; [|reflexivity].
  apply map_size_empty_iff in Hsize. contradiction.
Qed.

Lemma persist_empty (stored : option string) : persist ∅ stored = stored.
Proof. unfold persist. rewrite map_size_empty. reflexivity. Qed.

(** C9. The second effect writes the table over the slot when the table has
    a key, and leaves the slot as it is when the table is empty. *)
Theorem persist_conditional (t : gmap string string) (stored : option string) :
  (t <> ∅ -> persist t stored = Some (JSON.stringify t)) /\
  (t = ∅ -> persist t stored = stored).
Proof.
  split; [apply persist_nonempty | intros ->; apply persist_empty].
Qed.

Lemma persist_conditional_witness :
  persist defaultTemplates (Some "{}") = Some (JSON.stringify defaultTemplates) /\
  persist ∅ (Some "{}") = Some "{}".
Proof.
  split.
  - apply (persist_conditional defaultTemplates (Some "{}")).
    intros H. apply (f_equal size) in H. vm_compute in H. discriminate.
  - apply (persist_conditional ∅ (Some "{}")). reflexivity.
Defined.

(** ** The editor's invariant *)

Lemma step_keeps_view (a : action) (cs : component * option string) :
  a <> Render ->
  renderedSVG (step a cs).1 = renderedSVG cs.1 /\
  error (step a cs).1 = error cs.1.
Proof. destruct cs as [c stored], a; simpl; intros Ha; easy. Qed.

Lemma renderTikZ_view (c : component) :
  (error (renderTikZ c) <> None /\ renderedSVG (renderTikZ c) = None) \/
  (error (renderTikZ c) = None /\
   validateTikZSyntax (tikzCode c) = [] /\
   renderedSVG (renderTikZ c) = Some (synthesize (tikzCode c))).
Proof.
  unfold renderTikZ.
  destruct (validateTikZSyntax (tikzCode c)) as [|e es]; simpl.
  - right. easy.
  - left. easy.
Qed.

Lemma action_is_render (a : action) : a = Render \/ a <> Render.
Proof. destruct a; (left; reflexivity) || (right; discriminate). Qed.

(** C6. In every state of a session that starts with an empty editor, no
    error and no markup, a stored error means that no markup is kept, and
    any markup kept is what [synthesize] gives for some code that passed
    the check. No action but rendering touches the markup or the error. *)
Theorem reachable_invariant (cs : component * option string) :
  reachable cs ->
  (error cs.1 <> None -> renderedSVG cs.1 = None) /\
  (forall svg, renderedSVG cs.1 = Some svg ->
     exists code, validateTikZSyntax code = [] /\ svg = synthesize code) /\
  (forall a, a <> Render ->
     renderedSVG (step a cs).1 = renderedSVG cs.1 /\
     error (step a cs).1 = error cs.1).
Proof.
  intros Hr. split; [|split]; [| |intros a; apply step_keeps_view].
  - induction Hr as [t stored|a cs Hr IH]; [easy|].
    destruct (action_is_render a) as [->|Ha].
    + destruct cs as [c stored]. simpl.
      destruct (renderTikZ_view c) as [[_ H]|[H _]]; [easy | congruence].
    + destruct (step_keeps_view a cs Ha) as [-> ->]. exact IH.
  - induction Hr as [t stored|a cs Hr IH]; [easy|].
    destruct (action_is_render a) as [->|Ha].
    + destruct cs as [c stored]. simpl. intros svg Hsvg.
      destruct (renderTikZ_view c) as [[_ H]|[_ [Hok H]]]; [congruence|].
      exists (tikzCode c). split; [exact Hok | congruence].
    + destruct (step_keeps_view a cs Ha) as [-> _]. exact IH.
Qed.

Lemma reachable_invariant_witness :
  let cs := run [EditCode "\begin{tikzpicture} bar \end{tikzpicture}";
                 Render; EditCode "bar"; Render; SelectTemplate "Bar Graph"]
                (setTemplates defaultTemplates initial, None) in
  error cs.1 <> None /\ renderedSVG cs.1 = None.
Proof.
  intros cs. split; [vm_compute; discriminate|].
  apply (reachable_invariant cs); [|vm_compute; discriminate].
  repeat apply reachable_step. apply reachable_start.
Defined.

(** ** JSON: what is written is read back *)

Module JSONFacts.
Import JSON.

Lemma length_append (a b : string) :
  String.length (a +:+ b) = String.length a + String.length b.
Proof.
  induction a as [|c a IH]; [reflexivity|].
  rewrite append_cons. simpl. now rewrite IH.
Qed.

(** An escaped character is read back as that character. *)
Lemma string_body_escape (c : ascii) (r : string) :
  string_body (escape_char c +:+ r) = prepend (N_of_ascii c) (string_body r).
Proof.
  destruct c as [[] [] [] [] [] [] [] []]; reflexivity.
Qed.

Lemma string_body_quote (s r : string) :
  string_body (quote_body s +:+ String dquote r) = Some (units_of_text s, r).
Proof.
  induction s as [|c s IH]; [reflexivity|].
  cbn [quote_body]. rewrite append_assoc, string_body_escape, IH.
  reflexivity.
Qed.

Lemma quote_append (s r : string) :
  quote s +:+ r = String dquote (quote_body s +:+ String dquote r).
Proof.
  unfold quote. rewrite append_cons, append_assoc. reflexivity.
Qed.

Lemma parse_value_dquote (n : nat) (x : string) :
  parse_value (S n) (String dquote x) =
    match string_body x with
    | Some (us, rest) => Parsed (Str us) rest
    | None => SyntaxError
    end.
Proof. reflexivity. Qed.

Lemma parse_value_quote (n : nat) (s r : string) :
  parse_value (S n) (quote s +:+ r) = Parsed (Str (units_of_text s)) r.
Proof.
  rewrite quote_append, parse_value_dquote, string_body_quote. reflexivity.
Qed.

Lemma parse_members_member (n : nat) (kv : string * string) (tail : string) :
  parse_members (S (S n)) (member kv +:+ tail) =
    after_member (S n) (value_of_member kv) tail.
Proof.
  destruct kv as [k v]. unfold member, value_of_member, after_member.
  cbn [fst snd]. rewrite !append_assoc, quote_append.
  change (":" +:+ quote v +:+ tail) with (String ":" (quote v +:+ tail)).
  set (x := quote_body k +:+ _).
  assert (Hx : string_body x = Some (units_of_text k, String ":" (quote v +:+ tail)))
    by apply string_body_quote.
  clearbody x.
  change (parse_members (S (S n)) (String dquote x)) with
    (match string_body x with
     | Some (k, r1) =>
       match skip_ws r1 with
       | String c1 r2 =>
         if Ascii.eqb c1 ":" then
           match parse_value (S n) r2 with
           | Parsed v rest => after_member (S n) (k, v) rest
           | SyntaxError => SyntaxError
           | OutOfFuel => OutOfFuel
           end
         else SyntaxError
       | EmptyString => SyntaxError
       end
     | None => SyntaxError
     end).
  rewrite Hx.
  change (skip_ws (String ":" (quote v +:+ tail)))
    with (String ":" (quote v +:+ tail)).
  change (Ascii.eqb ":" ":") with true. cbv iota.
  rewrite parse_value_quote. reflexivity.
Qed.

Lemma join_cons (sep x y : string) (l : list string) :
  join sep (x :: y :: l) = x +:+ sep +:+ join sep (y :: l).
Proof. reflexivity. Qed.

Lemma parse_members_join (l : list (string * string)) :
  forall (kv : string * string) (n : nat) (rest : string),
  length l <= n ->
  parse_members (S (S n))
    (join "," (member <$> kv :: l) +:+ String "}" rest) =
  Parsed (value_of_member <$> kv :: l) rest.
Proof.
  induction l as [|kv' l IH]; intros kv n rest Hn.
  - change (join "," (member <$> [kv])) with (member kv).
    rewrite parse_members_member. reflexivity.
  - rewrite !fmap_cons, join_cons, !append_assoc, parse_members_member.
    destruct n as [|n]; [simpl in Hn; lia|].
    unfold after_member.
    change (skip_ws ("," +:+ ?x +:+ ?y)) with (String "," (x +:+ y)).
    change (Ascii.eqb "," "}") with false.
    change (Ascii.eqb "," ",") with true. cbv iota.
    rewrite <- !fmap_cons, IH by (simpl in Hn; lia). reflexivity.
Qed.

(** The text [stringify] writes is read back as the members it wrote. *)
Lemma parse_value_stringify (l : list (string * string)) (n : nat) :
  length l <= n ->
  parse_value (S (S (S n))) ("{" +:+ join "," (member <$> l) +:+ "}") =
    Parsed (Object (value_of_member <$> l)) "".
Proof.
  intros Hn. destruct l as [|kv l]; [reflexivity|].
  destruct kv as [k v].
  assert (exists x, join "," (member <$> (k, v) :: l) +:+ "}"
                    = String dquote x) as [x Hx].
  { destruct l as [|kv' l].
    - eexists. change (join "," (member <$> [(k, v)])) with (member (k, v)).
      unfold member. rewrite !append_assoc, quote_append. reflexivity.
    - eexists. rewrite !fmap_cons, join_cons. unfold member at 1.
      rewrite !append_assoc, quote_append. reflexivity. }
  change ("{" +:+ ?y) with (String "{" y).
  pose proof (parse_members_join l (k, v) n "" ltac:(simpl in Hn; lia)) as Hm.
  change (String "}" "") with "}" in Hm. rewrite Hx in *.
  change (parse_value (S (S (S n))) (String "{" (String dquote x))) with
    (match parse_members (S (S n)) (String dquote x) with
     | Parsed ms rest => Parsed (Object ms) rest
     | SyntaxError => SyntaxError
     | OutOfFuel => OutOfFuel
     end).
  rewrite Hm. reflexivity.
Qed.

Lemma member_length (kv : string * string) : 1 <= String.length (member kv).
Proof.
  unfold member. rewrite quote_append. simpl. lia.
Qed.

Lemma join_member_length (l : list (string * string)) :
  length l <= String.length (join "," (member <$> l)).
Proof.
  induction l as [|kv [|kv' l] IH]; [simpl; lia | apply member_length |].
  rewrite !fmap_cons, join_cons, !length_append.
  rewrite !fmap_cons in IH. pose proof (member_length kv).
  cbn [length] in *. lia.
Qed.

Lemma parse_stringify (o : gmap string string) :
  parse (stringify o) = Some (Object (value_of_member <$> map_to_list o)).
Proof.
  unfold parse, stringify.
  set (l := map_to_list o).
  pose proof (join_member_length l) as Hlen.
  change ("{" +:+ ?y) with (String "{" y) at 1.
  cbn [String.length]. rewrite length_append.
  replace (2 * S (String.length (join "," (member <$> l)) + String.length "}") + 1)
    with (S (S (S (2 * String.length (join "," (member <$> l)) + 2))))
    by (simpl; lia).
  change (String "{" ?y) with ("{" +:+ y).
  rewrite parse_value_stringify by lia. reflexivity.
Qed.

Lemma text_of_units_of_text (s : string) :
  text_of_units (units_of_text s) = Some s.
Proof.
  induction s as [|c s IH]; [reflexivity|].
  change (units_of_text (String c s)) with (N_of_ascii c :: units_of_text s).
  cbn [text_of_units]. rewrite IH. unfold unit_char.
  pose proof (N_ascii_bounded c) as Hc. apply N.ltb_lt in Hc. rewrite Hc.
  cbn. rewrite ascii_N_embedding. reflexivity.
Qed.

Lemma member_text_of_member (kv : string * string) :
  member_text (value_of_member kv) = Some kv.
Proof.
  destruct kv as [k v]. unfold member_text, value_of_member. cbn [fst snd].
  rewrite !text_of_units_of_text. reflexivity.
Qed.

Lemma mapM_member_text (l : list (string * string)) :
  mapM member_text (value_of_member <$> l) = Some l.
Proof.
  induction l as [|kv l IH]; [reflexivity|].
  rewrite fmap_cons. cbn [mapM]. rewrite member_text_of_member, IH.
  reflexivity.
Qed.

Lemma foldl_insert_lookup (l : list (string * string)) :
  forall (acc : gmap string string) (k : string),
  NoDup l.*1 ->
  foldl (fun o kv => <[kv.1 := kv.2]> o) acc l !! k =
    match (list_to_map l : gmap string string) !! k with
    | Some v => Some v
    | None => acc !! k
    end.
Proof.
  induction l as [|[k0 v0] l IH]; intros acc k Hnd.
  - simpl. rewrite lookup_empty. reflexivity.
  - rewrite fmap_cons in Hnd. apply NoDup_cons in Hnd as [Hk0 Hnd].
    cbn [foldl list_to_map foldr fst snd uncurry].
    rewrite IH by exact Hnd.
    destruct (decide (k0 = k)) as [->|Hne].
    + cbn [fst] in Hk0. rewrite (not_elem_of_list_to_map_1 l k Hk0).
      rewrite !lookup_insert_eq. reflexivity.
    + rewrite !(lookup_insert_ne _ k0 k) by exact Hne. reflexivity.
Qed.

Lemma object_of_members_to_list (o : gmap string string) :
  object_of_members (map_to_list o) = o.
Proof.
  apply map_eq. intros k. unfold object_of_members.
  rewrite foldl_insert_lookup by apply NoDup_fst_map_to_list.
  rewrite list_to_map_to_list, lookup_empty. destruct (o !! k); reflexivity.
Qed.

(** The table written by [stringify] is the table read back. *)
Lemma as_templates_parse_stringify (o : gmap string string) :
  exists v, parse (stringify o) = Some v /\ as_templates v = Some o.
Proof.
  eexists. split; [apply parse_stringify|].
  unfold as_templates. rewrite mapM_member_text. cbn.
  rewrite object_of_members_to_list. reflexivity.
Qed.

Lemma stringify_not_empty (o : gmap string string) :
  String.eqb (stringify o) "" = false.
Proof. reflexivity. Qed.

(** *** The reader and the writer on small texts *)

Example parse_nested :
  parse "[1, -2.5e+3, true, null, {}, [ ]]" =
    Some (Array [Number "1"; Number "-2.5e+3"; Bool true; Null;
                 Object []; Array []]).
Proof. reflexivity. Qed.

Example parse_member_escapes :
  parse ("{ " +:+ q "a" +:+ " : " +:+ q "\u0041\n" +:+ " }") =
    Some (Object [([97%N], Str [65%N; 10%N])]).
Proof. reflexivity. Qed.

Example parse_rejects :
  parse "" = None /\ parse "{" = None /\ parse "[1,]" = None /\
  parse "01" = None /\ parse "1." = None /\ parse "nul" = None /\
  parse "true false" = None /\ parse (q nl) = None /\
  parse ("{" +:+ q "a" +:+ ":1,}") = None.
Proof. repeat split. Qed.

Example stringify_singleton :
  stringify {[ "a b" := "\x" +:+ nl +:+ dq ]} =
    "{" +:+ q "a b" +:+ ":" +:+ q ("\\x\n\" +:+ dq) +:+ "}".
Proof. reflexivity. Qed.

(** *** The parser never runs out of fuel *)

Ltac break_hyp H :=
  repeat match type of H with
  | context [match ?x with _ => _ end] => destruct x eqn:?; try discriminate H
  end.

Ltac break_goal :=
  repeat match goal with
  | |- context [match ?x with _ => _ end] => destruct x eqn:?
  end.

Lemma skip_ws_length (s : string) :
  String.length (skip_ws s) <= String.length s.
Proof.
  induction s as [|c s IH]; [reflexivity|].
  cbn [skip_ws]. destruct (is_ws c); simpl in *; lia.
Qed.

Lemma string_body_length (n : nat) :
  forall (s : string) (us : list N) (r : string),
  String.length s <= n ->
  string_body s = Some (us, r) -> String.length r < String.length s.
Proof.
  induction n as [|n IH]; intros s us r Hn H.
  - destruct s; [discriminate | simpl in Hn; lia].
  - destruct s as [|c s]; [discriminate|].
    cbn [string_body] in H. unfold prepend in H. break_hyp H;
      injection H as <- <-; simpl in *;
      repeat match goal with
      | E : string_body ?x = Some _ |- _ =>
        apply IH in E; [|simpl in *; lia]
      end; simpl in *; lia.
Qed.

Lemma digits_length (s : string) :
  forall d r, digits s = (d, r) -> String.length r <= String.length s.
Proof.
  induction s as [|c s IH]; intros d r H; cbn [digits] in H.
  - injection H as <- <-. reflexivity.
  - break_hyp H; injection H as <- <-; simpl.
    + specialize (IH _ _ eq_refl). lia.
    + lia.
Qed.

Lemma number_length (s lit r : string) :
  number s = Some (lit, r) -> String.length r < String.length s.
Proof.
  unfold number. intros H.
  repeat match goal with
  | E : context [match ?x with _ => _ end] |- _ => destruct x eqn:?
  | E : (_, _) = (_, _) |- _ => injection E as ? ?; subst
  | E : Some _ = Some _ |- _ => injection E as ?; subst
  | E : None = Some _ |- _ => discriminate E
  end;
  repeat match goal with
  | E : digits _ = (_, _) |- _ => apply digits_length in E
  end; simpl in *; congruence || lia.
Qed.

Lemma keyword_length (w : string) :
  forall s r, keyword w s = Some r -> String.length r <= String.length s.
Proof.
  induction w as [|a w IH]; intros s r H; cbn [keyword] in H.
  - injection H as <-. reflexivity.
  - break_hyp H. apply IH in H. simpl. lia.
Qed.

Ltac length_facts :=
  repeat match goal with
  | E : skip_ws ?a = _ |- _ =>
    let L := fresh "L" in
    pose proof (skip_ws_length a) as L; rewrite E in L; clear E
  | E : string_body _ = Some _ |- _ =>
    apply (string_body_length _ _ _ _ (le_n _)) in E
  | E : number _ = Some _ |- _ => apply number_length in E
  | E : keyword _ _ = Some _ |- _ => apply keyword_length in E
  end.

Lemma parse_length (n : nat) :
  (forall s v r, parse_value n s = Parsed v r ->
     String.length r < String.length s) /\
  (forall s vs r, parse_items n s = Parsed vs r ->
     String.length r < String.length s) /\
  (forall s ms r, parse_members n s = Parsed ms r ->
     String.length r < String.length s).
Proof.
  induction n as [|n (IHv & IHi & IHm)]; [repeat split; discriminate|].
  repeat split; intros s x r H;
    [cbn [parse_value] in H | cbn [parse_items] in H
     | cbn [parse_members] in H];
    break_hyp H; injection H as <- <-;
    repeat match goal with
    | E : parse_value n _ = Parsed _ _ |- _ => apply IHv in E
    | E : parse_items n _ = Parsed _ _ |- _ => apply IHi in E
    | E : parse_members n _ = Parsed _ _ |- _ => apply IHm in E
    end; length_facts; simpl in *; lia.
Qed.

Lemma parse_fuel (n : nat) :
  (forall s, 2 * String.length s < n -> parse_value n s <> OutOfFuel) /\
  (forall s, 2 * String.length s + 1 < n -> parse_items n s <> OutOfFuel) /\
  (forall s, 2 * String.length s < n -> parse_members n s <> OutOfFuel).
Proof.
  induction n as [|n (IHv & IHi & IHm)]; [repeat split; intros; lia|].
  repeat split; intros s Hs;
    [cbn [parse_value] | cbn [parse_items] | cbn [parse_members]];
    break_goal; try discriminate;
    repeat match goal with
    | E : parse_value n _ = Parsed _ _ |- _ => apply parse_length in E
    | E : parse_items n _ = Parsed _ _ |- _ => apply parse_length in E
    | E : parse_members n _ = Parsed _ _ |- _ => apply parse_length in E
    end;
    match goal with
    | E : parse_value n _ = OutOfFuel |- _ => apply IHv in E; [easy|]
    | E : parse_items n _ = OutOfFuel |- _ => apply IHi in E; [easy|]
    | E : parse_members n _ = OutOfFuel |- _ => apply IHm in E; [easy|]
    end; length_facts; simpl in *; lia.
Qed.

(** [parse] fails on a syntax error only: its budget is never used up. *)
Lemma parse_never_out_of_fuel (text : string) :
  parse_value (2 * String.length text + 1) text <> OutOfFuel.
Proof. apply parse_fuel. lia. Qed.

End JSONFacts.

(** ** Loading, saving and what the slot holds *)

Section Storage.
Import JSON.

Lemma load_absent : load None = SetTemplates defaultTemplates.
Proof. reflexivity. Qed.

Lemma load_stringify (o : gmap string string) :
  load (Some (stringify o)) = SetTemplates o.
Proof.
  unfold load. rewrite JSONFacts.stringify_not_empty.
  destruct (JSONFacts.as_templates_parse_stringify o) as (v & -> & ->).
  reflexivity.
Qed.

Lemma defaultTemplates_dom :
  dom defaultTemplates =
    ({[ "Rectangle with Circle"; "Bar Graph"; "Organizational Chart" ]}
      : gset string).
Proof.
  unfold defaultTemplates. rewrite !dom_insert_L, dom_singleton_L.
  set_solver.
Qed.

Lemma defaultTemplates_nonempty : defaultTemplates <> ∅.
Proof.
  intros H. apply (f_equal (fun m => m !! "Bar Graph")) in H.
  vm_compute in H. discriminate.
Qed.

(** C1, as the code has it. With no value in the slot, or the empty text,
    the first effect sets the three default templates. With a text that is
    no JSON, it throws the [SyntaxError] of [JSON.parse] and sets nothing;
    with a text that is JSON, it sets the parsed value, whatever that is,
    and never the defaults in its place. *)
Theorem load_spec (stored : option string) :
  (stored = None \/ stored = Some "" ->
     load stored = SetTemplates defaultTemplates) /\
  (forall s, stored = Some s -> s <> "" -> parse s = None ->
     load stored = Throws) /\
  (forall s v, stored = Some s -> s <> "" -> parse s = Some v ->
     load stored =
       match as_templates v with
       | Some m => SetTemplates m
       | None => SetForeign v
       end) /\
  (forall s, parse_value (2 * String.length s + 1) s <> OutOfFuel) /\
  size defaultTemplates = 3 /\
  dom defaultTemplates =
    ({[ "Rectangle with Circle"; "Bar Graph"; "Organizational Chart" ]}
      : gset string).
Proof.
  split; [|split; [|split; [|split; [|split]]]].
  - intros [-> | ->]; reflexivity.
  - intros s -> Hs Hp. unfold load.
    apply String.eqb_neq in Hs. rewrite Hs, Hp. reflexivity.
  - intros s v -> Hs Hp. unfold load.
    apply String.eqb_neq in Hs. rewrite Hs, Hp. reflexivity.
  - apply JSONFacts.parse_never_out_of_fuel.
  - reflexivity.
  - apply defaultTemplates_dom.
Qed.

Lemma load_spec_witness :
  load None = SetTemplates defaultTemplates /\
  load (Some "{") = Throws /\
  load (Some "{}") = SetTemplates ∅.
Proof.
  split; [|split].
  - apply (load_spec None). left. reflexivity.
  - apply (load_spec (Some "{") ) with (s := "{");
      [reflexivity | discriminate | reflexivity].
  - apply (load_spec (Some "{}")) with (s := "{}") (v := Object []);
      [reflexivity | discriminate | reflexivity].
Defined.

(** C1 as stated fails: a slot holding text that is no JSON makes the first
    effect throw, and a slot holding JSON that is no object makes it set
    that value; in neither case are the defaults set. *)
Lemma load_malformed_counterexample :
  (parse "{" = None /\ load (Some "{") = Throws) /\
  load (Some "[]") = SetForeign (Array []) /\
  load (Some "{") <> SetTemplates defaultTemplates /\
  load (Some "[]") <> SetTemplates defaultTemplates.
Proof.
  split; [split; reflexivity|]. split; [reflexivity|].
  split; discriminate.
Qed.

Lemma mount_loaded (stored : option string) (m : gmap string string) :
  load stored = SetTemplates m ->
  mount stored = Running (setTemplates m initial) (persist m stored).
Proof.
  intros Hload. unfold mount. rewrite Hload.
  cbn [templates initial setTemplates]. rewrite persist_empty. reflexivity.
Qed.

Lemma mount_absent :
  mount None = Running (setTemplates defaultTemplates initial)
                       (Some (stringify defaultTemplates)).
Proof.
  rewrite (mount_loaded None defaultTemplates load_absent).
  rewrite (persist_nonempty _ _ defaultTemplates_nonempty). reflexivity.
Qed.

(** C5, as the code has it. Mounting writes the loaded table to the slot
    whenever that table has a key, with no action of the user: the second
    effect runs again once [setTemplates] has replaced the empty table. So
    with no value in the slot the defaults are written to it. Once the
    component runs, no action but a template modification writes the
    slot. *)
Theorem mount_persists (stored : option string) (m : gmap string string) :
  load stored = SetTemplates m ->
  mount stored = Running (setTemplates m initial) (persist m stored) /\
  (m <> ∅ -> persist m stored = Some (stringify m)) /\
  (m = ∅ -> persist m stored = stored) /\
  (stored = None ->
     mount stored = Running (setTemplates defaultTemplates initial)
                            (Some (stringify defaultTemplates))) /\
  (forall acts c st,
     (forall a, a ∈ acts -> forall name newCode, a <> ModifyTemplate name newCode) ->
     (run acts (c, st)).2 = st).
Proof.
  intros Hload. split; [|split; [|split; [|split]]].
  - apply mount_loaded, Hload.
  - apply persist_nonempty.
  - intros ->. apply persist_empty.
  - intros ->. apply mount_absent.
  - intros acts. induction acts as [|a acts IH]; intros c st Hacts.
    + reflexivity.
    + cbn [run foldl]. destruct (step a (c, st)) as [c' st'] eqn:Hstep.
      assert (st' = st) as ->.
      { destruct a; cbn in Hstep; try (injection Hstep as <- <-; reflexivity).
        exfalso. eapply Hacts; [left | reflexivity]. }
      apply IH. intros a' Ha'. apply Hacts. right. exact Ha'.
Qed.

Lemma mount_persists_witness :
  mount None = Running (setTemplates defaultTemplates initial)
                       (persist defaultTemplates None).
Proof.
  destruct (mount_persists None defaultTemplates) as [H _];
    [reflexivity | exact H].
Defined.

(** C5 as stated fails: a session that starts with no value in the slot
    and in which the user does nothing ends with the defaults written to the
    slot. *)
Lemma mount_writes_defaults_counterexample :
  mount None = Running (setTemplates defaultTemplates initial)
                       (Some (stringify defaultTemplates)) /\
  (run [] (setTemplates defaultTemplates initial,
           Some (stringify defaultTemplates))).2 <> None.
Proof. split; [apply mount_absent | discriminate]. Qed.

(** C7. After a template modification the slot holds a text from which a
    fresh load sets the modified table: the name is bound to the new code
    and every other name is bound as before. *)
Theorem save_then_load (c : component) (stored : option string)
    (name newCode : string) :
  load (step (ModifyTemplate name newCode) (c, stored)).2 =
    SetTemplates (<[name := newCode]> (templates c)) /\
  templates (step (ModifyTemplate name newCode) (c, stored)).1 =
    <[name := newCode]> (templates c) /\
  (<[name := newCode]> (templates c) : gmap string string) !! name
    = Some newCode /\
  (forall other, other <> name ->
     (<[name := newCode]> (templates c) : gmap string string) !! other
       = templates c !! other).
Proof.
  cbn [step handleTemplateModification setTemplates templates fst snd].
  rewrite persist_nonempty by apply insert_non_empty.
  rewrite load_stringify.
  split; [reflexivity|]. split; [reflexivity|]. split.
  - apply lookup_insert_eq.
  - intros other Hne. apply lookup_insert_ne. congruence.
Qed.

Lemma save_then_load_witness :
  load (step (ModifyTemplate "Axes" "\begin{tikzpicture}\end{tikzpicture}")
             (setTemplates defaultTemplates initial, None)).2 =
    SetTemplates
      (<["Axes" := "\begin{tikzpicture}\end{tikzpicture}"]> defaultTemplates).
Proof.
  apply (save_then_load (setTemplates defaultTemplates initial) None
           "Axes" "\begin{tikzpicture}\end{tikzpicture}").
Defined.

End Storage.

(** * More on the handlers *)

(** ** The check sees presence only *)

Lemma contains_embedded (a s b w : string) :
  contains s w -> contains (a +:+ s +:+ b) w.
Proof.
  intros (x & y & ->). exists (a +:+ x), (y +:+ b).
  now rewrite !append_assoc.
Qed.

Lemma includes_embedded (a s b w : string) :
  includes s w = true -> includes (a +:+ s +:+ b) w = true.
Proof. rewrite !includes_contains. apply contains_embedded. Qed.

Lemma includes_at (a w b : string) : includes (a +:+ w +:+ b) w = true.
Proof. apply includes_contains. exists a, b. reflexivity. Qed.

(** X1. The check does not look at the order of the markers: code with the
    closing marker before the opening one passes, as code with the markers
    in order does, whatever stands before, between and after them. *)
Theorem validateTikZSyntax_any_order (a b c : string) :
  validateTikZSyntax (a +:+ end_marker +:+ b +:+ begin_marker +:+ c) = [] /\
  validateTikZSyntax (a +:+ begin_marker +:+ b +:+ end_marker +:+ c) = [].
Proof.
  split; rewrite validateTikZSyntax_cases.
  - rewrite includes_at.
    rewrite <- (append_assoc a), <- (append_assoc (a +:+ end_marker)).
    rewrite includes_at. reflexivity.
  - rewrite includes_at.
    rewrite <- (append_assoc a), <- (append_assoc (a +:+ begin_marker)).
    rewrite includes_at. reflexivity.
Qed.

(** X2. Text put around the code never adds a report: what the check
    reports for the larger text is, in order, among what it reports for the
    code. *)
Theorem validateTikZSyntax_embedded (a code b : string) :
  validateTikZSyntax (a +:+ code +:+ b) `sublist_of` validateTikZSyntax code.
Proof.
  rewrite !validateTikZSyntax_cases.
  pose proof (includes_embedded a code b begin_marker) as Hb.
  pose proof (includes_embedded a code b end_marker) as He.
  destruct (includes code begin_marker), (includes code end_marker);
    try rewrite (Hb eq_refl); try rewrite (He eq_refl);
    destruct (includes (a +:+ code +:+ b) begin_marker),
             (includes (a +:+ code +:+ b) end_marker);
    cbn [app]; repeat constructor.
Qed.

(** X3. The two cases of the check the claims leave open: with the opening
    marker there and the closing one missing, the report is the closing
    message alone; with both missing, it is the opening message followed by
    the closing one. *)
Theorem validateTikZSyntax_closing (code : string) :
  (contains code begin_marker -> ~ contains code end_marker ->
     validateTikZSyntax code = ["Missing \end{tikzpicture}"]) /\
  (~ contains code begin_marker -> ~ contains code end_marker ->
     validateTikZSyntax code =
       ["Missing \begin{tikzpicture}"; "Missing \end{tikzpicture}"]).
Proof.
  rewrite <- !includes_not_contains, <- !includes_contains.
  rewrite validateTikZSyntax_cases.
  split; intros -> ->; reflexivity.
Qed.

Lemma validateTikZSyntax_closing_witness :
  validateTikZSyntax "\begin{tikzpicture} \draw (0,0);" =
    ["Missing \end{tikzpicture}"] /\
  validateTikZSyntax "\draw (0,0);" =
    ["Missing \begin{tikzpicture}"; "Missing \end{tikzpicture}"].
Proof.
  split.
  - apply (validateTikZSyntax_closing "\begin{tikzpicture} \draw (0,0);").
    + exists "", " \draw (0,0);". reflexivity.
    + apply includes_not_contains. reflexivity.
  - apply (validateTikZSyntax_closing "\draw (0,0);");
      apply includes_not_contains; reflexivity.
Defined.

(** ** Rendering again *)

(** X4. Rendering depends on the code alone and settles at once: whatever
    error and markup the component held, they are replaced, and rendering a
    second time changes nothing. *)
Theorem renderTikZ_idempotent (c : component)
    (e v : option string) :
  renderTikZ (setError e (setRenderedSVG v c)) = renderTikZ c /\
  renderTikZ (renderTikZ c) = renderTikZ c.
Proof.
  destruct c as [code t svg err]. unfold renderTikZ.
  cbn [tikzCode setError setRenderedSVG templates renderedSVG error].
  destruct (0 <? length (validateTikZSyntax code)) eqn:Hlen;
    cbn [tikzCode setError setRenderedSVG templates renderedSVG error];
    rewrite ?Hlen; split; reflexivity.
Qed.

Lemma join_reports_not_empty (code : string) :
  validateTikZSyntax code <> [] ->
  String.eqb (join ", " (validateTikZSyntax code)) "" = false.
Proof.
  markers code; intros H; try reflexivity. now contradiction H.
Qed.

Lemma reachable_error_not_empty (cs : component * option string) :
  reachable cs -> error cs.1 <> Some "".
Proof.
  induction 1 as [t stored|a cs Hr IH]; [discriminate|].
  destruct (action_is_render a) as [->|Ha].
  - destruct cs as [c stored]. cbn [step fst].
    assert (validateTikZSyntax (tikzCode c) = [] \/
            validateTikZSyntax (tikzCode c) <> []) as [Hv|Hv]
      by (destruct (validateTikZSyntax (tikzCode c)); [left|right]; easy).
    + unfold renderTikZ. rewrite Hv. discriminate.
    + destruct (renderTikZ_reports c Hv) as [_ ->]. intros [= E].
      pose proof (join_reports_not_empty _ Hv) as Hne.
      rewrite E in Hne. discriminate.
  - destruct (step_keeps_view a cs Ha) as [_ ->]. exact IH.
Qed.

(** X5. In every state of a session the red box shows exactly the stored
    error: the error is never the empty text, the one text the guard
    [error && ...] would hide. *)
Theorem errorBox_shows_error (cs : component * option string) :
  reachable cs -> errorBox cs.1 = error cs.1.
Proof.
  intros Hr. apply reachable_error_not_empty in Hr. unfold errorBox.
  destruct (error cs.1) as [e|]; [|reflexivity].
  destruct (String.eqb_spec e "") as [->|_]; [now contradiction Hr | reflexivity].
Qed.

Lemma errorBox_shows_error_witness :
  errorBox (step Render (step (EditCode "\draw (0,0);")
                              (setTemplates defaultTemplates initial, None))).1 =
  error (step Render (step (EditCode "\draw (0,0);")
                           (setTemplates defaultTemplates initial, None))).1.
Proof.
  apply (errorBox_shows_error
           (step Render (step (EditCode "\draw (0,0);")
                              (setTemplates defaultTemplates initial, None)))).
  repeat apply reachable_step. apply reachable_start.
Defined.

(** ** Choosing and modifying templates *)

Lemma or_empty (code : string) : (if String.eqb code "" then "" else code) = code.
Proof. destruct (String.eqb_spec code "") as [->|_]; reflexivity. Qed.

Lemma handleTemplateChange_code (name : string) (c : component) :
  tikzCode (handleTemplateChange name c) = default "" (templates c !! name).
Proof.
  unfold handleTemplateChange. cbn [tikzCode setTikzCode].
  destruct (templates c !! name); [apply or_empty | reflexivity].
Qed.



(** X7. Choosing a template right after it was modified puts the new code,
    empty or not, in the editor; choosing any other name gives what it gave
    before the modification. *)
Theorem select_after_modification (name newCode : string) (c : component) :
  tikzCode (handleTemplateChange name
              (handleTemplateModification name newCode c)) = newCode /\
  (forall other, other <> name ->
     tikzCode (handleTemplateChange other
                 (handleTemplateModification name newCode c)) =
     tikzCode (handleTemplateChange other c)).
Proof.
  split; [|intros other Hne]; rewrite !handleTemplateChange_code;
    cbn [handleTemplateModification setTemplates templates].
  - rewrite lookup_insert_eq. reflexivity.
  - rewrite lookup_insert_ne by congruence. reflexivity.
Qed.

(** X8. Of two modifications of one name the later one wins, in the table
    and in the slot: the outcome is that of the later modification alone. *)
Theorem modification_last_wins (name code1 code2 : string)
    (cs : component * option string) :
  step (ModifyTemplate name code2) (step (ModifyTemplate name code1) cs) =
  step (ModifyTemplate name code2) cs.
Proof.
  destruct cs as [c stored].
  unfold step, handleTemplateModification, setTemplates.
  cbn [templates tikzCode renderedSVG error].
  rewrite insert_insert_eq.
  rewrite !(persist_nonempty (<[name := code2]> (templates c)))
    by apply insert_non_empty.
  reflexivity.
Qed.

Lemma run_cons (a : action) (acts : list action)
    (cs : component * option string) :
  run (a :: acts) cs = run acts (step a cs).
Proof. reflexivity. Qed.

Lemma run_app (acts1 acts2 : list action) (cs : component * option string) :
  run (acts1 ++ acts2) cs = run acts2 (run acts1 cs).
Proof. apply foldl_app. Qed.

Lemma step_templates (a : action) (cs : component * option string) :
  templates (step a cs).1 =
    match a with
    | ModifyTemplate name newCode => <[name := newCode]> (templates cs.1)
    | _ => templates cs.1
    end.
Proof.
  destruct cs as [c stored], a; try reflexivity.
  cbn [step fst]. unfold renderTikZ.
  destruct (0 <? length (validateTikZSyntax (tikzCode c))); reflexivity.
Qed.

(** X9. Over a whole session, the text bound to a name changes only by a
    modification of that name: with no such modification among the actions,
    the name is bound at the end as it was at the start. *)
Theorem binding_kept (name : string) (acts : list action) :
  forall cs : component * option string,
  (forall newCode, ModifyTemplate name newCode ∉ acts) ->
  templates (run acts cs).1 !! name = templates cs.1 !! name.
Proof.
  induction acts as [|a acts IH]; intros cs Hacts; [reflexivity|].
  rewrite run_cons, IH.
  - rewrite step_templates. destruct a; try reflexivity.
    apply lookup_insert_ne. intros ->. eapply Hacts. left.
  - intros newCode Hin. eapply Hacts. right. exact Hin.
Qed.

Lemma binding_kept_witness :
  templates
    (run [EditCode "\draw (0,0);"; ModifyTemplate "Axes" "\draw (0,0);"; Render]
         (setTemplates defaultTemplates initial, None)).1 !! "Bar Graph" =
  templates (setTemplates defaultTemplates initial, @None string).1 !! "Bar Graph".
Proof.
  apply (binding_kept "Bar Graph"
           [EditCode "\draw (0,0);"; ModifyTemplate "Axes" "\draw (0,0);"; Render]
           (setTemplates defaultTemplates initial, None)).
  intros newCode Hin.
  repeat (apply elem_of_cons in Hin as [Hin|Hin]; [discriminate Hin|]).
  apply elem_of_nil in Hin. exact Hin.
Defined.

(** X10. No action removes a template: every name of the table is still a
    name of the table at the end of a session. *)
Theorem templates_never_removed (acts : list action) :
  forall cs : component * option string,
  dom (templates cs.1) ⊆ dom (templates (run acts cs).1).
Proof.
  induction acts as [|a acts IH]; intros cs; [reflexivity|].
  rewrite run_cons. etransitivity; [|apply IH].
  rewrite step_templates. destruct a; try reflexivity.
  rewrite dom_insert. set_solver.
Qed.

(** ** Downloading *)

Lemma step_keeps_code (a : action) (cs : component * option string) :
  (forall v, a <> EditCode v) -> (forall v, a <> SelectTemplate v) ->
  tikzCode (step a cs).1 = tikzCode cs.1.
Proof.
  destruct cs as [c stored]. destruct a; intros He Hs; try reflexivity.
  - now contradiction (Hs name).
  - now contradiction (He value).
  - cbn [step fst renderTikZ]. unfold renderTikZ.
    destruct (0 <? length (validateTikZSyntax (tikzCode c))); reflexivity.
Qed.

Lemma run_keeps_code (acts : list action) :
  forall cs : component * option string,
  (forall a, a ∈ acts ->
     (forall v, a <> EditCode v) /\ (forall v, a <> SelectTemplate v)) ->
  tikzCode (run acts cs).1 = tikzCode cs.1.
Proof.
  induction acts as [|a acts IH]; intros cs Hacts; [reflexivity|].
  rewrite run_cons, IH.
  - apply step_keeps_code; apply Hacts; left.
  - intros a' Ha'. apply Hacts. right. exact Ha'.
Qed.

(** X11. The file offered for download is named [diagram.tex] and holds the
    text last typed in the editor, as typed: rendering, modifying templates
    and downloading after the edit do not alter it. *)
Theorem downloadCode_last_edit (before after : list action) (value : string)
    (cs : component * option string) :
  (forall a, a ∈ after ->
     (forall v, a <> EditCode v) /\ (forall v, a <> SelectTemplate v)) ->
  downloadCode (run (before ++ EditCode value :: after) cs).1 =
    (value, "diagram.tex").
Proof.
  intros Hafter. unfold downloadCode.
  rewrite run_app, run_cons, (run_keeps_code after _ Hafter).
  destruct (run before cs) as [c stored]. reflexivity.
Qed.

Lemma downloadCode_last_edit_witness :
  downloadCode
    (run ([SelectTemplate "Bar Graph"] ++
          EditCode "\draw (0,0);" ::
            [Render; ModifyTemplate "Axes" "\draw (1,1);"; Download])
         (setTemplates defaultTemplates initial, None)).1 =
  ("\draw (0,0);", "diagram.tex").
Proof.
  apply (downloadCode_last_edit [SelectTemplate "Bar Graph"]
           [Render; ModifyTemplate "Axes" "\draw (1,1);"; Download]
           "\draw (0,0);" (setTemplates defaultTemplates initial, None)).
  intros a Hin.
  repeat (apply elem_of_cons in Hin as [->|Hin]; [split; discriminate|]).
  apply elem_of_nil in Hin. contradiction.
Defined.

(** ** The slot follows the table *)

Section Durability.
Import JSON.










End Durability.
